(** * SumTube: the request handler of [App.py] and its three helpers

    A shallow embedding of [src/App.py]: Python strings are lists of
    Unicode code points, the string methods the program calls
    ([in], [split], [rstrip], [strip], [join], indexing) are total
    functions with Python's failure cases written out, exceptions are
    values of a sum type, and the calls to the two external services
    are recorded in a trace. *)

From Stdlib Require Import Ascii String.
From Stdlib Require Import List NArith ZArith Bool Lia.
Import ListNotations.

Set Implicit Arguments.

(** ** Python strings *)

(** A [str] is a sequence of code points. *)
Definition char : Type := N.
Definition pystr : Type := list char.

(** A literal of the source, written as a Rocq string. *)
Definition py (s : string) : pystr := map N_of_ascii (list_ascii_of_string s).
Arguments py s%_string : simpl never.

Definition dquote : pystr := [34%N].
Definition newline : pystr := [10%N].
Definition slash : char := 47%N.

(** [bool(s)] for a [str]: the empty string is falsy. *)
Definition py_bool (s : pystr) : bool :=
  match s with
  | [] => false
  | _ :: _ => true
  end.

(** [s.startswith(p)] *)
Fixpoint startswith (p s : pystr) : bool :=
  match p, s with
  | [], _ => true
  | _ :: _, [] => false
  | a :: p', b :: s' => N.eqb a b && startswith p' s'
  end.

(** [sub in s] *)
Fixpoint py_in (sub s : pystr) : bool :=
  startswith sub s ||
  match s with
  | [] => false
  | _ :: t => py_in sub t
  end.

(** The pieces of [s] between the occurrences of [sep], found from the
    left and not overlapping; [skip] counts the characters of the
    separator just matched that are still to be passed over. *)
Fixpoint split_from (sep s : pystr) (skip : nat) : list pystr :=
  match s with
  | [] => [[]]
  | c :: t =>
    match skip with
    | S k => split_from sep t k
    | O =>
      if startswith sep s then [] :: split_from sep t (length sep - 1)
      else match split_from sep t 0 with
           | piece :: pieces => (c :: piece) :: pieces
           | [] => [[c]]
           end
    end
  end.

(** Characters removed from the right end while [p] holds. *)
Fixpoint rstrip_by (p : char -> bool) (s : pystr) : pystr :=
  match s with
  | [] => []
  | c :: t =>
    match rstrip_by p t with
    | [] => if p c then [] else [c]
    | r => c :: r
    end
  end.

Fixpoint lstrip_by (p : char -> bool) (s : pystr) : pystr :=
  match s with
  | [] => []
  | c :: t => if p c then lstrip_by p t else s
  end.

Definition char_in (chars : pystr) (c : char) : bool := existsb (N.eqb c) chars.

(** [s.rstrip(chars)] *)
Definition py_rstrip (chars s : pystr) : pystr := rstrip_by (char_in chars) s.

(** [c.isspace()]: the code points Python treats as whitespace. *)
Definition py_isspace (c : char) : bool :=
  ((9 <=? c) && (c <=? 13) || (28 <=? c) && (c <=? 32)
   || (c =? 133) || (c =? 160) || (c =? 5760)
   || (8192 <=? c) && (c <=? 8202)
   || (c =? 8232) || (c =? 8233) || (c =? 8239) || (c =? 8287)
   || (c =? 12288))%N.

(** [s.strip()] *)
Definition py_strip (s : pystr) : pystr :=
  lstrip_by py_isspace (rstrip_by py_isspace s).

(** [sep.join(l)] *)
Fixpoint py_join (sep : pystr) (l : list pystr) : pystr :=
  match l with
  | [] => []
  | x :: rest =>
    match rest with
    | [] => x
    | _ :: _ => x ++ sep ++ py_join sep rest
    end
  end.

(** ** Exceptions *)

(** The exceptions the program meets; all of them are instances of
    Python's [Exception].  [LibraryError] stands for any exception
    class of the two client libraries. *)
Inductive exn : Type :=
| ValueError (msg : pystr)
| IndexError (msg : pystr)
| EnvironmentError (msg : pystr)
| LibraryError (cls msg : pystr).

Definition is_ValueError (e : exn) : bool :=
  match e with
  | ValueError _ => true
  | _ => false
  end.

(** [isinstance(e, Exception)] *)
Definition is_Exception (e : exn) : bool := true.

(** A computation that returns or raises. *)
Definition result (A : Type) : Type := (exn + A)%type.

Definition ok {A} (a : A) : result A := inr a.
Definition raise {A} (e : exn) : result A := inl e.

Definition rbind {A B} (m : result A) (f : A -> result B) : result B :=
  match m with
  | inl e => inl e
  | inr a => f a
  end.

Declare Scope result_scope.
Delimit Scope result_scope with result.
Notation "x <- m ;; k" := (rbind m (fun x => k))
  (at level 61, m at next level, right associativity) : result_scope.

(** [s.split(sep)] *)
Definition py_split (sep s : pystr) : result (list pystr) :=
  match sep with
  | [] => raise (ValueError (py "empty separator"))
  | _ :: _ => ok (split_from sep s 0)
  end.

(** [l[i]], negative indices counting from the end. *)
Definition py_index {A} (l : list A) (i : Z) : result A :=
  let n := Z.of_nat (length l) in
  let j := if (i <? 0)%Z then (n + i)%Z else i in
  if ((0 <=? j) && (j <? n))%Z then
    match nth_error l (Z.to_nat j) with
    | Some x => ok x
    | None => raise (IndexError (py "list index out of range"))
    end
  else raise (IndexError (py "list index out of range")).

(** ** [extract_youtube_id] *)

Definition extract_youtube_id (url : pystr) : result pystr :=
  (if py_in (py "youtube.com/watch?v=") url then
     after <- (pieces <- py_split (py "v=") url ;; py_index pieces 1) ;;
     pieces <- py_split (py "&") after ;;
     py_index pieces 0
   else if py_in (py "youtu.be/") url then
     pieces <- py_split (py "/") (py_rstrip (py "/") url) ;;
     py_index pieces (-1)
   else raise (ValueError (py "Invalid YouTube URL")))%result.

(** ** The external services *)

(** A caption entry of the transcript library's raw data: a text
    fragment and its timing, whose representation the program never
    looks at. *)
Record entry (timing : Type) : Type := mk_entry {
  entry_text : pystr;
  entry_start : timing;
  entry_duration : timing
}.

(** The request and response shapes of the completion client. *)
Record Part : Type := mk_Part { text : pystr }.
Record Content : Type := mk_Content { role : pystr; parts : list Part }.
Record Candidate : Type := mk_Candidate { content : Content }.
Record Response : Type := mk_Response { candidates : list Candidate }.
Record Client : Type := mk_Client { client_api_key : pystr }.

(** What the program does to the outside world, in order. *)
Inductive event : Type :=
| TranscriptFetch (video_id : pystr)
| ClientCreated (api_key : pystr)
| GenerateContent (api_key model : pystr) (contents : list Content).

(** A computation that leaves a trace of events and returns or raises. *)
Definition M (A : Type) : Type := (list event * result A)%type.

Definition ret {A} (a : A) : M A := ([], inr a).
Definition throw {A} (e : exn) : M A := ([], inl e).
Definition lift {A} (r : result A) : M A := ([], r).

Definition bind {A B} (m : M A) (f : A -> M B) : M B :=
  match m with
  | (t, inl e) => (t, inl e)
  | (t, inr a) => let (t', r) := f a in (t ++ t', r)
  end.

(** [try: m except C: h], where [handles] tells the instances of [C]. *)
Definition try_except {A} (m : M A) (handles : exn -> bool) (h : exn -> M A) : M A :=
  match m with
  | (t, inl e) => if handles e then let (t', r) := h e in (t ++ t', r) else (t, inl e)
  | (t, inr a) => (t, inr a)
  end.

Definition trace {A} (m : M A) : list event := fst m.
Definition outcome {A} (m : M A) : result A := snd m.

Declare Scope M_scope.
Delimit Scope M_scope with M.
Notation "x <- m ;; k" := (bind m (fun x => k))
  (at level 61, m at next level, right associativity) : M_scope.

(** [bool(x)] for an [Optional[str]]: [None] and the empty string are falsy. *)
Definition py_bool_opt (x : option pystr) : bool :=
  match x with
  | None => false
  | Some s => py_bool s
  end.

(** The response body: a dict, as the list of its items. *)
Definition payload : Type := list (pystr * pystr).

(** The f-string of the summarizer. *)
Definition prompt_of (transcript : pystr) : pystr :=
  py "Based on the following transcription please give me the summary in a json format like this:"
  ++ newline ++ py "{" ++ newline
  ++ py "   " ++ dquote ++ py "Topic name" ++ dquote ++ py " : "
  ++ dquote ++ py "name of the topic" ++ dquote ++ py "," ++ newline
  ++ py "   " ++ dquote ++ py "Topic summary" ++ dquote ++ py " : "
  ++ dquote ++ py "Summary of the topic" ++ dquote ++ newline
  ++ py "}" ++ newline
  ++ py "Transcription:" ++ newline
  ++ transcript ++ newline.

Definition missing_key_message : pystr :=
  py "GEMINI_API_KEY environment variable not set. Please set it in your .env file or system environment.".

Section Services.

Variable timing : Type.

(** [os.getenv], after [load_dotenv()]. *)
Variable getenv : pystr -> option pystr.

(** [YouTubeTranscriptApi().fetch(video_id).to_raw_data()] *)
Variable transcript_service : pystr -> result (list (entry timing)).

(** [client.models.generate_content(model=..., contents=...)], for the
    client made with the given credential. *)
Variable completion_service : pystr -> pystr -> list Content -> result Response.

Definition ytt_fetch (video_id : pystr) : M (list (entry timing)) :=
  ([TranscriptFetch video_id], transcript_service video_id).

Definition genai_Client (api_key : pystr) : M Client :=
  ([ClientCreated api_key], inr (mk_Client api_key)).

Definition generate_content (client : Client) (model : pystr)
    (contents : list Content) : M Response :=
  ([GenerateContent (client_api_key client) model contents],
   completion_service (client_api_key client) model contents).

(** ** [fetch_youtube_transcript] *)

(** The whole body is inside [try: ... except Exception: return None]. *)
Definition fetch_youtube_transcript (video_id : pystr) : M (option pystr) :=
  try_except
    (transcript <- ytt_fetch video_id ;;
     let all_text := py_join (py " ") (map (@entry_text timing) transcript) in
     ret (if py_bool (py_strip all_text) then Some all_text else None))%M
    is_Exception
    (fun _ => ret None).

(** ** [summarize_transcript_with_gemini] *)

(** [if not api_key] holds for [None] and for the empty string; the
    client is made, and the service called, only after that test. *)
Definition summarize_transcript_with_gemini (transcript : pystr) : M pystr :=
  let api_key := getenv (py "GEMINI_API_KEY") in
  match api_key with
  | Some key =>
    if py_bool key then
      (client <- genai_Client key ;;
       let model := py "gemini-2.5-pro" in
       let prompt := prompt_of transcript in
       let contents := [mk_Content (py "user") [mk_Part prompt]] in
       response <- generate_content client model contents ;;
       candidate <- lift (py_index (candidates response) 0) ;;
       part <- lift (py_index (parts (content candidate)) 0) ;;
       ret (text part))%M
    else throw (EnvironmentError missing_key_message)
  | None => throw (EnvironmentError missing_key_message)
  end.

(** ** [get_summary] *)

(** The handler, over the function it calls to summarize.  Only the
    call of [extract_youtube_id] is inside [try: ... except ValueError];
    [if transcript] is the truth test of an [Optional[str]]. *)
Definition get_summary_with (summarize : pystr -> M pystr) (url : pystr) : M payload :=
  match extract_youtube_id url with
  | inl e =>
    if is_ValueError e then ret [(py "error", py "Invalid YouTube URL.")]
    else throw e
  | inr video_id =>
    (transcript <- fetch_youtube_transcript video_id ;;
     match transcript with
     | Some t =>
       if py_bool t then
         summary <- summarize t ;;
         ret [(py "summary", summary)]
       else ret [(py "error", py "Transcript not found or not available for this video.")]
     | None => ret [(py "error", py "Transcript not found or not available for this video.")]
     end)%M
  end.

Definition get_summary (url : pystr) : M payload :=
  get_summary_with summarize_transcript_with_gemini url.

End Services.

(** ** Concrete services, to run the handler *)

Definition captions (l : list pystr) : list (entry unit) :=
  map (fun s => mk_entry s tt tt) l.

Definition no_environment (name : pystr) : option pystr := None.

Definition environment_with_key (name : pystr) : option pystr :=
  if list_eq_dec N.eq_dec name (py "GEMINI_API_KEY") then Some (py "secret") else None.

Definition hello_world_transcripts (video_id : pystr) : result (list (entry unit)) :=
  ok (captions [py "Hello"; py "world"]).

Definition a_b_transcripts (video_id : pystr) : result (list (entry unit)) :=
  ok (captions [py "a"; py "b"]).

Definition blank_transcripts (video_id : pystr) : result (list (entry unit)) :=
  ok (captions [py " "; []]).

Definition failing_transcripts (video_id : pystr) : result (list (entry unit)) :=
  raise (LibraryError (py "TranscriptsDisabled") (py "no captions")).

Definition topic_xy : pystr :=
  py "{" ++ dquote ++ py "Topic name" ++ dquote ++ py ":" ++ dquote ++ py "X" ++ dquote
  ++ py "," ++ dquote ++ py "Topic summary" ++ dquote ++ py ":" ++ dquote ++ py "Y"
  ++ dquote ++ py "}".

Definition topic_xy_completion (api_key model : pystr) (contents : list Content)
    : result Response :=
  ok (mk_Response [mk_Candidate (mk_Content (py "model") [mk_Part topic_xy])]).

Definition failing_completion (api_key model : pystr) (contents : list Content)
    : result Response :=
  raise (LibraryError (py "ServerError") (py "503 UNAVAILABLE")).



Definition no_parts_completion (api_key model : pystr) (contents : list Content)
    : result Response :=
  ok (mk_Response [mk_Candidate (mk_Content (py "model") [])]).

Definition two_candidates_completion (api_key model : pystr) (contents : list Content)
    : result Response :=
  ok (mk_Response
        [mk_Candidate (mk_Content (py "model") [mk_Part (py "first"); mk_Part (py "second")]);
         mk_Candidate (mk_Content (py "model") [mk_Part (py "other")])]).

(** * Properties *)

(** ** Substrings *)

Lemma startswith_app (p r : pystr) : startswith p (p ++ r) = true.
Proof.
  induction p as [|a p IH]; simpl; [reflexivity|].
  now rewrite N.eqb_refl, IH.
Qed.

Lemma startswith_inv (p s : pystr) :
  startswith p s = true -> exists r, s = p ++ r.
Proof.
  revert s; induction p as [|a p IH]; intros s H.
  - now exists s.
  - destruct s as [|b s]; simpl in H; [discriminate|].
    apply andb_true_iff in H as [Hab Hps].
    apply N.eqb_eq in Hab; subst b.
    destruct (IH _ Hps) as [r ->]. now exists r.
Qed.

Lemma startswith_weaken (p x y : pystr) :
  startswith p x = true -> startswith p (x ++ y) = true.
Proof.
  intros H. destruct (startswith_inv _ _ H) as [r ->].
  rewrite <- app_assoc. apply startswith_app.
Qed.

Lemma startswith_nil_r (p : pystr) : p <> [] -> startswith p [] = false.
Proof. destruct p; [congruence | reflexivity]. Qed.

Lemma py_in_intro (sub a b : pystr) : py_in sub (a ++ sub ++ b) = true.
Proof.
  induction a as [|c a IH].
  - simpl. destruct (sub ++ b) eqn:E.
    + destruct sub; [reflexivity | discriminate].
    + simpl. rewrite <- E, startswith_app. reflexivity.
  - simpl app. simpl py_in. rewrite IH. apply orb_true_r.
Qed.

Lemma py_in_elim (sub s : pystr) :
  py_in sub s = true -> exists a b, s = a ++ sub ++ b.
Proof.
  induction s as [|c s IH]; simpl; intros H.
  - rewrite orb_false_r in H. destruct (startswith_inv _ _ H) as [r ->].
    now exists [], r.
  - apply orb_true_iff in H as [H|H].
    + destruct (startswith_inv _ _ H) as [r ->]. now exists [], r.
    + destruct (IH H) as (a & b & ->). now exists (c :: a), b.
Qed.

(** A string that contains [x ++ y ++ z] contains [y]. *)
Lemma py_in_part (x y z s : pystr) :
  py_in (x ++ y ++ z) s = true -> py_in y s = true.
Proof.
  intros H. destruct (py_in_elim _ _ H) as (a & b & ->).
  replace (a ++ (x ++ y ++ z) ++ b) with ((a ++ x) ++ y ++ (z ++ b))
    by now rewrite <- !app_assoc.
  apply py_in_intro.
Qed.

Lemma py_in_app_false (sub x y : pystr) :
  py_in sub (x ++ y) = false -> py_in sub x = false /\ py_in sub y = false.
Proof.
  intros H; split.
  - destruct (py_in sub x) eqn:E; [|reflexivity].
    destruct (py_in_elim _ _ E) as (a & b & ->).
    rewrite <- !app_assoc, py_in_intro in H. discriminate.
  - destruct (py_in sub y) eqn:E; [|reflexivity].
    destruct (py_in_elim _ _ E) as (a & b & ->).
    rewrite app_assoc, py_in_intro in H. discriminate.
Qed.

Lemma py_in_char (c : char) (s : pystr) :
  py_in [c] s = true <-> In c s.
Proof.
  split.
  - intros H. destruct (py_in_elim _ _ H) as (a & b & ->).
    apply in_or_app. right. now left.
  - intros H. destruct (in_split _ _ H) as (a & b & ->).
    apply (py_in_intro [c]).
Qed.

(** ** Splitting *)

Lemma split_from_skip (sep x s : pystr) :
  split_from sep (x ++ s) (length x) = split_from sep s 0.
Proof. induction x as [|c x IH]; simpl; auto. Qed.

Lemma split_from_match (sep r : pystr) :
  sep <> [] -> split_from sep (sep ++ r) 0 = [] :: split_from sep r 0.
Proof.
  destruct sep as [|c sep]; [congruence|]. intros _.
  change (split_from (c :: sep) ((c :: sep) ++ r) 0)
    with (if startswith (c :: sep) ((c :: sep) ++ r)
          then [] :: split_from (c :: sep) (sep ++ r) (length (c :: sep) - 1)
          else match split_from (c :: sep) (sep ++ r) 0 with
               | piece :: pieces => (c :: piece) :: pieces
               | [] => [[c]]
               end).
  rewrite startswith_app.
  replace (length (c :: sep) - 1) with (length sep) by (simpl; lia).
  now rewrite split_from_skip.
Qed.

Lemma split_from_nonempty (sep s : pystr) (k : nat) : split_from sep s k <> [].
Proof.
  revert k; induction s as [|c s IH]; intros k; simpl; [discriminate|].
  destruct k; [|apply IH].
  destruct (startswith sep (c :: s)); [discriminate|].
  destruct (split_from sep s 0); discriminate.
Qed.

(** The first piece of a split: the text before the first occurrence
    of the separator, or the whole string when there is none. *)
Lemma split_from_head (sep : pystr) :
  sep <> [] ->
  forall s, exists h tl,
    split_from sep s 0 = h :: tl /\ py_in sep h = false /\
    ((s = h /\ tl = []) \/ exists b, s = h ++ sep ++ b /\ tl = split_from sep b 0).
Proof.
  intros Hsep. induction s as [|c s IH].
  - exists [], []. simpl. rewrite (startswith_nil_r Hsep). auto.
  - destruct (startswith sep (c :: s)) eqn:E.
    + destruct (startswith_inv _ _ E) as [b Hb]. rewrite Hb.
      exists [], (split_from sep b 0). rewrite (split_from_match _ Hsep).
      repeat split.
      * simpl. now rewrite (startswith_nil_r Hsep).
      * right. now exists b.
    + destruct IH as (h & tl & Hs & Hin & Hshape).
      exists (c :: h), tl. simpl split_from. simpl in E. rewrite E, Hs.
      repeat split.
      * simpl py_in. rewrite Hin, orb_false_r.
        destruct (startswith sep (c :: h)) eqn:E'; [|reflexivity].
        destruct Hshape as [[-> _] | (b & -> & _)].
        -- simpl in E'. congruence.
        -- apply (startswith_weaken _ _ (sep ++ b)) in E'. simpl in E'. congruence.
      * destruct Hshape as [[-> ->] | (b & -> & ->)]; [now left | right].
        now exists b.
Qed.

(** The last piece of a split: the text after the last separator. *)
Lemma split_from_last (sep : pystr) :
  sep <> [] ->
  forall s, exists pre l,
    last (split_from sep s 0) [] = l /\ s = pre ++ l /\ py_in sep l = false /\
    (pre = [] \/ exists pre', pre = pre' ++ sep).
Proof.
  intros Hsep s.
  remember (length s) as n eqn:Hn. revert s Hn.
  induction n as [n IH] using lt_wf_ind. intros s Hn.
  destruct (split_from_head Hsep s) as (h & tl & Hs & Hin & Hshape).
  destruct Hshape as [[-> ->] | (b & -> & ->)].
  - exists [], h. rewrite Hs. simpl. auto.
  - assert (Hlt : length b < n).
    { subst n. rewrite !length_app. destruct sep; [congruence | simpl; lia]. }
    destruct (IH _ Hlt b eq_refl) as (pre & l & Hl & Hb & Hinl & Hpre).
    exists (h ++ sep ++ pre), l. rewrite Hs. repeat split.
    + rewrite <- Hl. pose proof (split_from_nonempty sep b 0) as Hne.
      destruct (split_from sep b 0); [congruence | reflexivity].
    + rewrite Hb at 1. now rewrite <- !app_assoc.
    + assumption.
    + right. destruct Hpre as [-> | (pre' & ->)].
      * exists h. now rewrite app_nil_r.
      * exists (h ++ sep ++ pre'). now rewrite <- !app_assoc.
Qed.

(** ** Indexing *)

Lemma py_index_nth {A} (l : list A) (i : Z) (x : A) :
  (0 <= i)%Z -> nth_error l (Z.to_nat i) = Some x -> py_index l i = ok x.
Proof.
  intros Hi Hx. unfold py_index. cbv zeta.
  assert (Hlen : Z.to_nat i < length l)
    by (apply nth_error_Some; congruence).
  destruct (Z.ltb_spec i 0) as [H|_]; [lia|].
  destruct (Z.leb_spec 0 i) as [_|H]; [|lia].
  destruct (Z.ltb_spec i (Z.of_nat (length l))) as [_|H]; [|lia].
  simpl. now rewrite Hx.
Qed.

Lemma py_index_0 {A} (x : A) (l : list A) : py_index (x :: l) 0 = ok x.
Proof. apply py_index_nth; [lia | reflexivity]. Qed.

Lemma py_index_1 {A} (x y : A) (l : list A) : py_index (x :: y :: l) 1 = ok y.
Proof. apply py_index_nth; [lia | reflexivity]. Qed.

Lemma py_index_last {A} (l : list A) (d : A) :
  l <> [] -> py_index l (-1) = ok (last l d).
Proof.
  intros Hl. unfold py_index. cbv zeta.
  assert (Hlen : 0 < length l) by (destruct l; [congruence | simpl; lia]).
  destruct (Z.ltb_spec (-1) 0) as [_|H]; [|lia].
  destruct (Z.leb_spec 0 (Z.of_nat (length l) + -1)) as [_|H]; [|lia].
  destruct (Z.ltb_spec (Z.of_nat (length l) + -1) (Z.of_nat (length l))) as [_|H]; [|lia].
  simpl andb. cbv iota.
  replace (Z.to_nat (Z.of_nat (length l) + -1)) with (length l - 1) by lia.
  destruct (@exists_last _ l Hl) as (l' & a & ->).
  rewrite last_last, length_app. simpl length.
  replace (length l' + 1 - 1) with (length l') by lia.
  rewrite nth_error_app2, Nat.sub_diag by lia. reflexivity.
Qed.

(** ** Stripping *)

(** What [rstrip_by] removes is a run of characters satisfying [p], and
    what it leaves is empty or ends with a character that does not. *)
Lemma rstrip_by_spec (p : char -> bool) (s : pystr) :
  exists tail,
    s = rstrip_by p s ++ tail /\ forallb p tail = true /\
    (rstrip_by p s = [] \/ exists x c, rstrip_by p s = x ++ [c] /\ p c = false).
Proof.
  induction s as [|c s (tail & Hs & Htail & Hend)].
  - exists []. simpl. auto.
  - simpl. destruct (rstrip_by p s) as [|d r] eqn:E.
    + destruct (p c) eqn:Hc.
      * exists (c :: tail). simpl in Hs. subst s. simpl. rewrite Hc, Htail. auto.
      * exists tail. simpl in Hs. subst s. repeat split; auto.
        right. now exists [], c.
    + exists tail. repeat split; auto.
      * simpl. now rewrite Hs at 1.
      * right. destruct Hend as [? | (x & e & Hx & He)]; [discriminate|].
        exists (c :: x), e. now rewrite Hx.
Qed.

Lemma lstrip_by_nil (p : char -> bool) (s : pystr) :
  lstrip_by p s = [] <-> forallb p s = true.
Proof.
  induction s as [|c s IH]; simpl; [tauto|].
  destruct (p c); simpl; [exact IH | split; discriminate].
Qed.

Lemma rstrip_by_nil (p : char -> bool) (s : pystr) :
  rstrip_by p s = [] <-> forallb p s = true.
Proof.
  split.
  - intros H. destruct (rstrip_by_spec p s) as (tail & Hs & Htail & _).
    rewrite H in Hs. simpl in Hs. now subst.
  - induction s as [|c s IH]; simpl; [reflexivity|].
    intros H. apply andb_true_iff in H as [Hc Hs].
    now rewrite (IH Hs), Hc.
Qed.

(** [s.strip()] is empty exactly when [s] is made of whitespace only
    (the empty string included). *)
Lemma py_strip_nil (s : pystr) :
  py_strip s = [] <-> forallb py_isspace s = true.
Proof.
  unfold py_strip. rewrite lstrip_by_nil. split.
  - intros H. apply rstrip_by_nil.
    destruct (rstrip_by_spec py_isspace s) as (_ & _ & _ & [E | (x & c & E & Hc)]);
      [assumption|].
    rewrite E, forallb_app in H. simpl in H. rewrite Hc, andb_false_r in H.
    discriminate.
  - intros H. apply rstrip_by_nil in H. now rewrite H.
Qed.

Lemma py_bool_strip (s : pystr) :
  py_bool (py_strip s) = negb (forallb py_isspace s).
Proof.
  destruct (forallb py_isspace s) eqn:E.
  - apply py_strip_nil in E. now rewrite E.
  - destruct (py_strip s) eqn:E'; [|reflexivity].
    apply py_strip_nil in E'. congruence.
Qed.

Lemma not_all_exists (p : char -> bool) (s : pystr) :
  forallb p s = false -> exists c, In c s /\ p c = false.
Proof.
  induction s as [|c s IH]; simpl; [discriminate|].
  destruct (p c) eqn:Hc; simpl.
  - intros H. destruct (IH H) as (d & Hd & Hpd). eauto.
  - intros _. eauto.
Qed.

Lemma char_in_single (d c : char) : char_in [d] c = N.eqb c d.
Proof. unfold char_in. simpl existsb. apply orb_false_r. Qed.

Lemma all_char_repeat (c : char) (s : pystr) :
  forallb (char_in [c]) s = true -> s = repeat c (length s).
Proof.
  induction s as [|d s IH]; simpl; [reflexivity|].
  intros H. apply andb_true_iff in H as [Hd Hs].
  unfold char_in in Hd. simpl in Hd. rewrite orb_false_r in Hd.
  apply N.eqb_eq in Hd. subst d. now rewrite <- (IH Hs).
Qed.

(** ** Joining *)

Lemma py_join_nil (sep : pystr) : py_join sep [] = [].
Proof. reflexivity. Qed.

Lemma py_join_one (sep x : pystr) : py_join sep [x] = x.
Proof. reflexivity. Qed.

Lemma py_join_cons (sep x y : pystr) (l : list pystr) :
  py_join sep (x :: y :: l) = x ++ sep ++ py_join sep (y :: l).
Proof. reflexivity. Qed.

(** The joined string has every fragment's characters and one separator
    between neighbours. *)
Lemma py_join_length (sep : pystr) (l : list pystr) :
  length (py_join sep l) =
  list_sum (map (@length char) l) + length sep * (length l - 1).
Proof.
  induction l as [|x [|y l] IH].
  - simpl. lia.
  - simpl. rewrite Nat.mul_0_r. lia.
  - rewrite py_join_cons, !length_app, IH.
    simpl map. simpl list_sum. simpl length. nia.
Qed.

(** ** The URL parser *)

Lemma py_split_ok (sep s : pystr) :
  sep <> [] -> py_split sep s = ok (split_from sep s 0).
Proof. destruct sep; [congruence | reflexivity]. Qed.

Example extract_watch_url :
  extract_youtube_id (py "https://www.youtube.com/watch?v=abc123&t=5") = ok (py "abc123").
Proof. reflexivity. Qed.

Example extract_short_url :
  extract_youtube_id (py "https://youtu.be/abc123/") = ok (py "abc123").
Proof. reflexivity. Qed.

Example extract_other_url :
  extract_youtube_id (py "not-a-youtube-url") = raise (ValueError (py "Invalid YouTube URL")).
Proof. reflexivity. Qed.

(** A string without the separator is its own single piece. *)
Lemma split_from_none (sep s : pystr) :
  sep <> [] -> py_in sep s = false -> split_from sep s 0 = [s].
Proof.
  intros Hsep Hs.
  destruct (split_from_head Hsep s) as (h & tl & E & _ & [[-> ->] | (b & -> & _)]).
  - exact E.
  - rewrite py_in_intro in Hs. discriminate.
Qed.

Lemma startswith_short (p u v : pystr) :
  length p <= length u -> startswith p (u ++ v) = startswith p u.
Proof.
  revert u; induction p as [|a p IH]; intros u Hlen; [reflexivity|].
  destruct u as [|b u]; simpl in Hlen; [lia|].
  simpl. rewrite IH by lia. reflexivity.
Qed.

(** When the separator does not begin anywhere in [a], the first piece
    of [a ++ sep ++ b] is [a]. *)
Lemma split_from_first (sep a b : pystr) :
  sep <> [] ->
  py_in sep (a ++ removelast sep) = false ->
  split_from sep (a ++ sep ++ b) 0 = a :: split_from sep b 0.
Proof.
  intros Hsep. induction a as [|d a IH]; intros Hin.
  - exact (split_from_match b Hsep).
  - simpl app in *. simpl py_in in Hin.
    apply orb_false_iff in Hin as [Hstart Hrest].
    assert (E : startswith sep (d :: a ++ sep ++ b) = false).
    { assert (Hlen : length sep = length (removelast sep) + 1).
      { rewrite (app_removelast_last 0%N Hsep) at 1. now rewrite length_app. }
      rewrite (app_removelast_last 0%N Hsep) at 2.
      rewrite <- app_assoc, (app_assoc a), app_comm_cons.
      rewrite startswith_short; [exact Hstart|].
      simpl length. rewrite length_app. unfold pystr, char in *. lia. }
    simpl split_from. simpl in E. rewrite E, (IH Hrest). reflexivity.
Qed.

(** With a one-character separator that is not in [l], the last piece
    of [q ++ c :: l] is [l]. *)
Lemma split_char_last (c : char) (q l : pystr) :
  py_in [c] l = false ->
  exists p ps, split_from [c] (q ++ c :: l) 0 = p :: ps ++ [l].
Proof.
  intros Hl. assert (Hc : [c] <> []) by discriminate.
  induction q as [|d q (p & ps & IH)].
  - exists [], []. simpl app.
    rewrite (split_from_match l Hc : split_from [c] (c :: l) 0 = _).
    now rewrite (@split_from_none [c] l Hc Hl).
  - destruct (N.eqb_spec c d) as [<-|Hcd].
    + exists [], (p :: ps). simpl app.
      rewrite (split_from_match (q ++ c :: l) Hc : split_from [c] (c :: q ++ c :: l) 0 = _).
      now rewrite IH.
    + exists (d :: p), ps. simpl app. simpl split_from.
      apply N.eqb_neq in Hcd. rewrite Hcd, IH. reflexivity.
Qed.

Lemma rstrip_by_app_tail (p : char -> bool) (x tail : pystr) (c : char) :
  p c = false -> forallb p tail = true ->
  rstrip_by p (x ++ c :: tail) = x ++ [c].
Proof.
  intros Hc Htail. induction x as [|d x IH]; simpl.
  - apply rstrip_by_nil in Htail. now rewrite Htail, Hc.
  - rewrite IH. destruct x; reflexivity.
Qed.

Lemma forallb_repeat (p : char -> bool) (c : char) (n : nat) :
  p c = true -> forallb p (repeat c n) = true.
Proof. intros Hc. induction n; simpl; [reflexivity | now rewrite Hc]. Qed.

(** No [v=] begins in front of the marker when none is in [pre]. *)
Lemma no_v_before_marker (pre : pystr) :
  py_in (py "v=") pre = false ->
  py_in (py "v=") ((pre ++ py "youtube.com/watch?") ++ removelast (py "v=")) = false.
Proof.
  rewrite <- app_assoc.
  change (py "youtube.com/watch?" ++ removelast (py "v="))
    with (py "youtube.com/watch?v").
  induction pre as [|d pre IH]; intros H; [reflexivity|].
  simpl app. simpl py_in in *.
  apply orb_false_iff in H as [Hstart Hrest].
  rewrite (IH Hrest), orb_false_r.
  destruct pre as [|e pre].
  - cbn. now rewrite andb_false_r.
  - exact Hstart.
Qed.

(** The two cuts of the watch branch, on the text after the marker. *)
Lemma watch_id_pieces (id rest : pystr) :
  py_in (py "v=") id = false ->
  py_in (py "&") id = false ->
  rest = [] \/ startswith (py "&") rest = true ->
  exists h tl tl',
    split_from (py "v=") (id ++ rest) 0 = h :: tl /\
    split_from (py "&") h 0 = id :: tl'.
Proof.
  intros Hv Hamp Hrest.
  assert (Nv : py "v=" <> []) by discriminate.
  assert (Namp : py "&" <> []) by discriminate.
  destruct (split_from_head Nv (id ++ rest)) as (h & tl & Hs & Hh & Hshape).
  exists h, tl.
  destruct Hrest as [-> | Hstart].
  - rewrite app_nil_r in *. destruct Hshape as [[<- _] | (b & E & _)].
    + exists []. split; [exact Hs | now apply split_from_none].
    + rewrite E, py_in_intro in Hv. discriminate.
  - destruct (startswith_inv _ _ Hstart) as [rest' ->].
    assert (Hcut : forall l, split_from (py "&") (id ++ py "&" ++ l) 0
                             = id :: split_from (py "&") l 0).
    { intros l. apply split_from_first; [exact Namp|].
      change (removelast (py "&")) with (@nil char). now rewrite app_nil_r. }
    destruct Hshape as [[<- _] | (b & E & _)].
    + eexists. split; [exact Hs | apply Hcut].
    + apply app_eq_app in E as (l & [[E1 E2] | [E1 E2]]).
      * destruct l as [|x [|y l]].
        -- discriminate E2.
        -- discriminate E2.
        -- injection E2 as <- <- _. rewrite E1 in Hv.
           change (py_in (py "v=") (h ++ py "v=" ++ l) = false) in Hv.
           rewrite py_in_intro in Hv. discriminate.
      * destruct l as [|x l]; [discriminate E2|].
        injection E2 as <- _. subst h.
        eexists. split; [exact Hs | exact (Hcut l)].
Qed.

(** C1, as stated, fails: a URL that contains [watch?v=] without the
    [youtube.com/] in front of it is not parsed at all. *)
Lemma watch_marker_alone_is_rejected :
  py_in (py "watch?v=") (py "watch?v=abc") = true /\
  extract_youtube_id (py "watch?v=abc") = raise (ValueError (py "Invalid YouTube URL")).
Proof. split; reflexivity. Qed.

(** The watch branch, by what its result is in the URL. *)
Lemma watch_branch_segment (url : pystr) :
  py_in (py "youtube.com/watch?v=") url = true ->
  exists a r rest,
    url = a ++ py "v=" ++ r ++ rest /\
    py_in (py "v=") a = false /\
    py_in (py "v=") r = false /\
    py_in (py "&") r = false /\
    (rest = [] \/ startswith (py "&") rest = true \/ startswith (py "v=") rest = true) /\
    extract_youtube_id url = ok r.
Proof.
  intros Hmark. unfold extract_youtube_id. rewrite Hmark.
  assert (Hv : py "v=" <> []) by discriminate.
  assert (Hamp : py "&" <> []) by discriminate.
  assert (Hin : py_in (py "v=") url = true)
    by exact (py_in_part (py "youtube.com/watch?") (py "v=") [] url Hmark).
  rewrite (py_split_ok url Hv).
  destruct (split_from_head Hv url) as (a & tl & Hs & Ha & [[E _] | (b & Hurl & ->)]).
  { subst a. congruence. }
  destruct (split_from_head Hv b) as (p & tl' & Hs' & Hp & Hb).
  rewrite Hs, Hs'. cbn [rbind ok]. rewrite py_index_1. cbn [rbind ok].
  rewrite (py_split_ok p Hamp).
  destruct (split_from_head Hamp p) as (r & tl'' & Hs'' & Hr & Hpr).
  rewrite Hs''. cbn [rbind ok]. rewrite py_index_0.
  assert (Hshape : exists restp, p = r ++ restp /\
                     (restp = [] \/ startswith (py "&") restp = true)).
  { destruct Hpr as [[-> _] | (c & -> & _)].
    - exists []. now rewrite app_nil_r; auto.
    - exists (py "&" ++ c). split; [reflexivity|]. right. apply startswith_app. }
  destruct Hshape as (restp & -> & Hrestp).
  destruct (py_in_app_false _ _ _ Hp) as [Hvr _].
  destruct Hb as [[-> _] | (c & -> & _)].
  - exists a, r, restp. repeat split; auto.
    destruct Hrestp; auto.
  - exists a, r, (restp ++ py "v=" ++ c). repeat split; auto.
    + now rewrite Hurl, <- !app_assoc.
    + destruct Hrestp as [-> | H].
      * right; right. exact (startswith_app (py "v=") c).
      * right; left. now apply startswith_weaken.
Qed.

(** The watch branch, on a URL built around an identifier. *)
Lemma watch_branch_id (pre id rest : pystr) :
  py_in (py "v=") pre = false ->
  py_in (py "v=") id = false ->
  py_in (py "&") id = false ->
  rest = [] \/ startswith (py "&") rest = true ->
  extract_youtube_id (pre ++ py "youtube.com/watch?v=" ++ id ++ rest) = ok id.
Proof.
  intros Hpre Hv Hamp Hrest. unfold extract_youtube_id.
  rewrite (py_in_intro (py "youtube.com/watch?v=") pre (id ++ rest)).
  assert (Nv : py "v=" <> []) by discriminate.
  assert (Namp : py "&" <> []) by discriminate.
  rewrite (py_split_ok _ Nv).
  replace (pre ++ py "youtube.com/watch?v=" ++ id ++ rest)
    with ((pre ++ py "youtube.com/watch?") ++ py "v=" ++ (id ++ rest)).
  2:{ rewrite <- app_assoc.
      change (py "youtube.com/watch?v=") with (py "youtube.com/watch?" ++ py "v=").
      now rewrite <- app_assoc. }
  rewrite (@split_from_first (py "v=") (pre ++ py "youtube.com/watch?") (id ++ rest)
             Nv (@no_v_before_marker pre Hpre)).
  destruct (@watch_id_pieces id rest Hv Hamp Hrest) as (h & tl & tl' & H1 & H2).
  rewrite H1. cbn [rbind ok]. rewrite py_index_1. cbn [rbind ok].
  rewrite (py_split_ok _ Namp), H2. cbn [rbind ok]. apply py_index_0.
Qed.

(** C1, amended: for every URL that contains [youtube.com/watch?v=],
    the parser returns the text [r] that follows the first [v=] of the
    URL and runs up to the next [&] or the next [v=], whichever comes
    first, or to the end of the string.  So a URL made of a prefix
    without [v=], the marker [youtube.com/watch?v=], an identifier
    without [&] and [v=], and then nothing or [&...], gives back
    exactly the identifier. *)
Theorem extract_youtube_id_watch :
  (forall url,
      py_in (py "youtube.com/watch?v=") url = true ->
      exists a r rest,
        url = a ++ py "v=" ++ r ++ rest /\
        py_in (py "v=") a = false /\
        py_in (py "v=") r = false /\
        py_in (py "&") r = false /\
        (rest = [] \/ startswith (py "&") rest = true
         \/ startswith (py "v=") rest = true) /\
        extract_youtube_id url = ok r) /\
  (forall pre id rest,
      py_in (py "v=") pre = false ->
      py_in (py "v=") id = false ->
      py_in (py "&") id = false ->
      rest = [] \/ startswith (py "&") rest = true ->
      extract_youtube_id (pre ++ py "youtube.com/watch?v=" ++ id ++ rest) = ok id).
Proof. split; [exact watch_branch_segment | exact watch_branch_id]. Qed.

Lemma extract_youtube_id_watch_witness :
  py_in (py "youtube.com/watch?v=") (py "https://www.youtube.com/watch?v=abc123&t=5") = true /\
  (exists a r rest,
    py "https://www.youtube.com/watch?v=abc123&t=5" = a ++ py "v=" ++ r ++ rest /\
    py_in (py "v=") a = false /\
    py_in (py "v=") r = false /\
    py_in (py "&") r = false /\
    (rest = [] \/ startswith (py "&") rest = true \/ startswith (py "v=") rest = true) /\
    extract_youtube_id (py "https://www.youtube.com/watch?v=abc123&t=5") = ok r) /\
  extract_youtube_id
    (py "https://www." ++ py "youtube.com/watch?v=" ++ py "abc123" ++ py "&t=5")
  = ok (py "abc123").
Proof.
  split; [reflexivity|].
  destruct extract_youtube_id_watch as [Hsegment Hid]. split.
  - apply (Hsegment (py "https://www.youtube.com/watch?v=abc123&t=5")). reflexivity.
  - apply (Hid (py "https://www.") (py "abc123") (py "&t=5")); try reflexivity.
    right. reflexivity.
Defined.

(** C2, as stated, fails: in the [youtu.be/] branch nothing is cut at
    an [&]. *)
Lemma short_url_keeps_ampersand :
  py_in (py "watch?v=") (py "https://youtu.be/abc&t=5") = false /\
  py_in (py "youtu.be/") (py "https://youtu.be/abc&t=5") = true /\
  extract_youtube_id (py "https://youtu.be/abc&t=5") = ok (py "abc&t=5").
Proof. repeat split; reflexivity. Qed.

(** The short-link branch, by what its result is in the URL. *)
Lemma short_branch_segment (url : pystr) :
  py_in (py "youtube.com/watch?v=") url = false ->
  py_in (py "youtu.be/") url = true ->
  exists a r n,
    url = a ++ r ++ repeat slash n /\
    (a = [] \/ exists a', a = a' ++ py "/") /\
    r <> [] /\
    py_in (py "/") r = false /\
    extract_youtube_id url = ok r.
Proof.
  intros Hwatch Hshort. unfold extract_youtube_id. rewrite Hwatch, Hshort.
  assert (Hsl : py "/" <> []) by discriminate.
  rewrite (py_split_ok _ Hsl). cbn [rbind ok].
  rewrite (@py_index_last _ _ [] (@split_from_nonempty _ _ _)).
  unfold py_rstrip.
  destruct (rstrip_by_spec (char_in (py "/")) url) as (tail & Hurl & Htail & Hend).
  destruct (split_from_last Hsl (rstrip_by (char_in (py "/")) url))
    as (a & r & Hlast & Hs & Hr & Ha).
  exists a, r, (length tail).
  repeat split; auto; [| | f_equal; exact Hlast].
  - rewrite Hurl at 1. rewrite Hs, <- app_assoc.
    now rewrite (all_char_repeat slash tail Htail) at 1.
  - intros ->. rewrite app_nil_r in Hs.
    destruct Hend as [E | (x & c & E & Hc)].
    + (* the URL would be made of slashes only *)
      rewrite E in Hurl. simpl in Hurl. subst tail.
      assert (Hy : In 121%N url).
      { destruct (py_in_elim _ _ Hshort) as (u & v & ->).
        apply in_or_app. right. now left. }
      rewrite forallb_forall in Htail. specialize (Htail _ Hy). discriminate.
    + destruct Ha as [-> | (a' & ->)].
      * rewrite Hs in E. destruct x; discriminate.
      * rewrite Hs in E. apply app_inj_tail in E as [_ <-]. discriminate.
Qed.

(** The short-link branch, on a URL built around an identifier. *)
Lemma short_branch_id (pre id : pystr) (n : nat) :
  id <> [] ->
  py_in (py "/") id = false ->
  py_in (py "youtube.com/watch?v=") (pre ++ py "youtu.be/" ++ id ++ repeat slash n) = false ->
  extract_youtube_id (pre ++ py "youtu.be/" ++ id ++ repeat slash n) = ok id.
Proof.
  intros Hne Hid Hwatch. unfold extract_youtube_id. rewrite Hwatch.
  rewrite (py_in_intro (py "youtu.be/") pre (id ++ repeat slash n)).
  assert (Nsl : py "/" <> []) by discriminate.
  rewrite (py_split_ok _ Nsl). cbn [rbind ok].
  rewrite (@py_index_last _ _ [] (@split_from_nonempty _ _ _)).
  destruct (@exists_last _ id Hne) as (x & c & ->).
  assert (Hc : char_in (py "/") c = false).
  { destruct (char_in (py "/") c) eqn:E; [|reflexivity].
    change (py "/") with [slash] in E. rewrite char_in_single in E.
    apply N.eqb_eq in E. subst c.
    change (py_in (py "/") (x ++ py "/" ++ []) = false) in Hid.
    rewrite py_in_intro in Hid. discriminate. }
  unfold py_rstrip.
  replace (pre ++ py "youtu.be/" ++ (x ++ [c]) ++ repeat slash n)
    with ((pre ++ py "youtu.be/" ++ x) ++ c :: repeat slash n)
    by now rewrite <- !app_assoc.
  rewrite (@rstrip_by_app_tail _ (pre ++ py "youtu.be/" ++ x) _ c Hc
             (@forallb_repeat (char_in (py "/")) slash n eq_refl)).
  replace ((pre ++ py "youtu.be/" ++ x) ++ [c])
    with ((pre ++ py "youtu.be") ++ slash :: (x ++ [c])).
  2:{ change (py "youtu.be/") with (py "youtu.be" ++ [slash]).
      now rewrite <- !app_assoc. }
  destruct (@split_char_last slash (pre ++ py "youtu.be") (x ++ [c]) Hid)
    as (p & ps & E).
  change (py "/") with [slash]. rewrite E.
  f_equal. exact (last_last (p :: ps) (x ++ [c]) []).
Qed.

(** C2, amended: for every URL that does not contain
    [youtube.com/watch?v=] and contains [youtu.be/], the parser returns
    the last path segment [r] of the URL with all its trailing slashes
    removed: [r] is not empty, has no [/] in it, and is preceded by a
    [/] or by the start of the URL.  Nothing is cut at an [&]: a URL
    that ends with [youtu.be/], an identifier that is not empty and
    has no [/], and any number of slashes gives back exactly the
    identifier. *)
Theorem extract_youtube_id_short :
  (forall url,
      py_in (py "youtube.com/watch?v=") url = false ->
      py_in (py "youtu.be/") url = true ->
      exists a r n,
        url = a ++ r ++ repeat slash n /\
        (a = [] \/ exists a', a = a' ++ py "/") /\
        r <> [] /\
        py_in (py "/") r = false /\
        extract_youtube_id url = ok r) /\
  (forall pre id n,
      id <> [] ->
      py_in (py "/") id = false ->
      py_in (py "youtube.com/watch?v=")
        (pre ++ py "youtu.be/" ++ id ++ repeat slash n) = false ->
      extract_youtube_id (pre ++ py "youtu.be/" ++ id ++ repeat slash n) = ok id).
Proof. split; [exact short_branch_segment | exact short_branch_id]. Qed.

Lemma extract_youtube_id_short_witness :
  py_in (py "youtube.com/watch?v=") (py "https://youtu.be/abc123//") = false /\
  py_in (py "youtu.be/") (py "https://youtu.be/abc123//") = true /\
  (exists a r n,
    py "https://youtu.be/abc123//" = a ++ r ++ repeat slash n /\
    (a = [] \/ exists a', a = a' ++ py "/") /\
    r <> [] /\
    py_in (py "/") r = false /\
    extract_youtube_id (py "https://youtu.be/abc123//") = ok r) /\
  extract_youtube_id (py "https://" ++ py "youtu.be/" ++ py "abc&t=5" ++ repeat slash 2)
  = ok (py "abc&t=5").
Proof.
  split; [reflexivity|]. split; [reflexivity|].
  destruct extract_youtube_id_short as [Hsegment Hid]. split.
  - apply (Hsegment (py "https://youtu.be/abc123//")); reflexivity.
  - apply (Hid (py "https://") (py "abc&t=5") 2); try reflexivity.
    vm_compute. discriminate.
Defined.

(** ** The fetcher, the summarizer and the handler *)

Section Properties.

Variable timing : Type.
Variable getenv : pystr -> option pystr.
Variable transcript_service : pystr -> result (list (entry timing)).
Variable completion_service : pystr -> pystr -> list Content -> result Response.

Local Abbreviation fetch := (fetch_youtube_transcript transcript_service).
Local Abbreviation summarize :=
  (summarize_transcript_with_gemini getenv completion_service).
Local Abbreviation handler :=
  (get_summary getenv transcript_service completion_service).
Local Abbreviation texts es := (map (@entry_text timing) es).

(** The fetcher calls the service once and then returns: it never raises. *)
Lemma fetch_unfold (video_id : pystr) :
  fetch video_id =
  ([TranscriptFetch video_id],
   match transcript_service video_id with
   | inl _ => ok None
   | inr es =>
     let all_text := py_join (py " ") (texts es) in
     ok (if forallb py_isspace all_text then None else Some all_text)
   end).
Proof.
  unfold fetch_youtube_transcript, ytt_fetch, try_except, bind, ret, is_Exception.
  destruct (transcript_service video_id) as [e|es]; [reflexivity|].
  cbv zeta. rewrite py_bool_strip, app_nil_r.
  now destruct (forallb py_isspace _).
Qed.

Lemma fetch_some_has_text (video_id t : pystr) :
  outcome (fetch video_id) = ok (Some t) -> forallb py_isspace t = false.
Proof.
  rewrite fetch_unfold. unfold outcome, ok. simpl snd.
  destruct (transcript_service video_id) as [e|es]; [discriminate|].
  cbv zeta. destruct (forallb py_isspace _) eqn:E; [discriminate|].
  intros [= <-]. exact E.
Qed.

Lemma has_text_py_bool (t : pystr) : forallb py_isspace t = false -> py_bool t = true.
Proof. destruct t; [discriminate | reflexivity]. Qed.

Lemma py_in_full_marker (url : pystr) :
  py_in (py "watch?v=") url = false ->
  py_in (py "youtube.com/watch?v=") url = false.
Proof.
  intros H. destruct (py_in (py "youtube.com/watch?v=") url) eqn:E; [|reflexivity].
  apply (py_in_part (py "youtube.com/") (py "watch?v=") []) in E. congruence.
Qed.

(** C3: a URL with neither [watch?v=] nor [youtu.be/] makes the parser
    raise the invalid-URL error, and the handler answers with the
    payload [{"error": "Invalid YouTube URL."}] without calling the
    transcript service or the summarizer (its trace is empty). *)
Theorem invalid_url_is_rejected (url : pystr) :
  py_in (py "watch?v=") url = false ->
  py_in (py "youtu.be/") url = false ->
  extract_youtube_id url = raise (ValueError (py "Invalid YouTube URL")) /\
  handler url = ([], ok [(py "error", py "Invalid YouTube URL.")]).
Proof.
  intros Hwatch Hshort.
  assert (E : extract_youtube_id url = raise (ValueError (py "Invalid YouTube URL"))).
  { unfold extract_youtube_id. now rewrite (py_in_full_marker _ Hwatch), Hshort. }
  split; [exact E|].
  unfold get_summary, get_summary_with. now rewrite E.
Qed.

(** C4: for the URL [https://youtu.be/abc123], when the transcript
    service returns the entries Hello and world and the completion
    service, called with the configured credential, answers with a
    response whose first candidate's first part is the given text,
    the handler responds with that text, verbatim, under the key
    [summary]. *)
Theorem end_to_end_success (key : pystr) (es : list (entry timing))
    (reply_role : pystr) (more_parts : list Part) (more_candidates : list Candidate) :
  getenv (py "GEMINI_API_KEY") = Some key ->
  key <> [] ->
  transcript_service (py "abc123") = ok es ->
  texts es = [py "Hello"; py "world"] ->
  completion_service key (py "gemini-2.5-pro")
    [mk_Content (py "user") [mk_Part (prompt_of (py "Hello world"))]]
  = ok (mk_Response
          (mk_Candidate (mk_Content reply_role (mk_Part topic_xy :: more_parts))
           :: more_candidates)) ->
  handler (py "https://youtu.be/abc123") =
  ([TranscriptFetch (py "abc123");
    ClientCreated key;
    GenerateContent key (py "gemini-2.5-pro")
      [mk_Content (py "user") [mk_Part (prompt_of (py "Hello world"))]]],
   ok [(py "summary", topic_xy)]).
Proof.
  intros Hkey Hne Hes Htexts Hreply. unfold ok in *.
  assert (Hfetch : fetch (py "abc123") =
                   ([TranscriptFetch (py "abc123")], inr (Some (py "Hello world")))).
  { rewrite fetch_unfold, Hes. cbv zeta. rewrite Htexts. reflexivity. }
  assert (Hsum : summarize (py "Hello world") =
                 ([ClientCreated key;
                   GenerateContent key (py "gemini-2.5-pro")
                     [mk_Content (py "user") [mk_Part (prompt_of (py "Hello world"))]]],
                  inr topic_xy)).
  { unfold summarize_transcript_with_gemini. rewrite Hkey.
    destruct key as [|k key]; [congruence|]. cbn [py_bool].
    unfold genai_Client, generate_content, bind. cbn [client_api_key].
    rewrite Hreply. cbn [candidates lift].
    rewrite py_index_0. unfold ok. cbn [content parts].
    rewrite py_index_0. reflexivity. }
  unfold get_summary, get_summary_with.
  change (extract_youtube_id (py "https://youtu.be/abc123")) with
    (@inr exn pystr (py "abc123")).
  cbv iota beta. rewrite Hfetch. unfold bind.
  change (py_bool (py "Hello world")) with true. cbv iota.
  rewrite Hsum. reflexivity.
Qed.

(** C5: whenever the transcript service raises, whatever the error,
    or returns no entry, or returns entries whose texts joined by
    spaces are empty or all whitespace, the fetcher returns [None];
    it does not raise. *)
Theorem fetch_failure_is_none (video_id : pystr) :
  (exists e, transcript_service video_id = raise e) \/
  transcript_service video_id = ok [] \/
  (exists es, transcript_service video_id = ok es /\
              forallb py_isspace (py_join (py " ") (texts es)) = true) ->
  fetch video_id = ([TranscriptFetch video_id], ok None).
Proof.
  rewrite fetch_unfold. unfold ok, raise.
  intros [(e & ->) | [-> | (es & -> & Hblank)]]; try reflexivity.
  cbv beta iota zeta. now rewrite Hblank.
Qed.

(** C6: with [GEMINI_API_KEY] absent from the environment, the
    summarizer raises the missing-credential error for every
    transcript, and its trace is empty: no client was made and the
    completion service was not called. *)
Theorem summarize_without_credential (transcript : pystr) :
  getenv (py "GEMINI_API_KEY") = None ->
  summarize transcript = ([], raise (EnvironmentError missing_key_message)).
Proof.
  intros Hkey. unfold summarize_transcript_with_gemini. now rewrite Hkey.
Qed.

(** C7: the fetcher joins the texts of the entries, in order, with one
    space between neighbours: the first text, then every further text
    with a space in front of it; that string is its result unless it
    is blank.  The entries a and b give [a b]. *)
Theorem fetch_joins_texts (video_id : pystr) (es : list (entry timing)) :
  transcript_service video_id = ok es ->
  (forallb py_isspace (py_join (py " ") (texts es)) = false ->
   outcome (fetch video_id) = ok (Some (py_join (py " ") (texts es)))) /\
  py_join (py " ") (texts es) =
    match texts es with
    | [] => []
    | x :: rest => x ++ concat (map (fun y => py " " ++ y) rest)
    end /\
  (texts es = [py "a"; py "b"] -> outcome (fetch video_id) = ok (Some (py "a b"))).
Proof.
  intros Hes. rewrite fetch_unfold. unfold ok in *. rewrite Hes.
  unfold outcome. cbn [snd]. cbv beta iota zeta.
  split; [|split].
  - now intros ->.
  - generalize (texts es) as l. clear.
    induction l as [|x [|y l] IH]; [reflexivity | simpl; now rewrite app_nil_r |].
    rewrite py_join_cons, IH. cbn [map concat]. now rewrite <- !app_assoc.
  - now intros ->.
Qed.

(** C8: when the URL parses and a transcript was fetched, an exception
    raised by the summarizer leaves the handler as it is: the handler
    raises the same exception and returns no payload. *)
Theorem summarizer_error_propagates (url video_id t : pystr)
    (tr tr' : list event) (e : exn) :
  extract_youtube_id url = ok video_id ->
  fetch video_id = (tr, ok (Some t)) ->
  summarize t = (tr', raise e) ->
  handler url = (tr ++ tr', raise e).
Proof.
  intros Hid Hfetch Hsum.
  assert (Ht : py_bool t = true).
  { apply has_text_py_bool, (@fetch_some_has_text video_id t).
    now rewrite Hfetch. }
  unfold get_summary, get_summary_with. rewrite Hid. unfold ok at 1.
  rewrite Hfetch. unfold bind, ok at 1. rewrite Ht, Hsum. reflexivity.
Qed.

(** C9: a transcript returned by the fetcher has a character that is
    not whitespace; so on the fetcher's results the handler's truth
    test is the test for [None], and the handler's answer does not
    depend on what the summarizer would do with a blank transcript:
    it is never called with one. *)
Theorem fetched_transcript_has_text :
  (forall video_id t,
      outcome (fetch video_id) = ok (Some t) ->
      exists c, In c t /\ py_isspace c = false) /\
  (forall video_id r,
      outcome (fetch video_id) = ok r ->
      py_bool_opt r = match r with Some _ => true | None => false end) /\
  (forall (summarize1 summarize2 : pystr -> M pystr) url,
      (forall t, (exists c, In c t /\ py_isspace c = false) ->
                 summarize1 t = summarize2 t) ->
      get_summary_with transcript_service summarize1 url =
      get_summary_with transcript_service summarize2 url).
Proof.
  split; [|split].
  - intros video_id t H. apply not_all_exists.
    exact (@fetch_some_has_text video_id t H).
  - intros video_id [t|] H; [|reflexivity].
    exact (@has_text_py_bool t (@fetch_some_has_text video_id t H)).
  - intros s1 s2 url Hagree. unfold get_summary_with.
    destruct (extract_youtube_id url) as [e|video_id]; [reflexivity|].
    pose proof (@fetch_some_has_text video_id) as Htext.
    destruct (fetch video_id) as [tr [e|[t|]]]; try reflexivity.
    specialize (Htext t eq_refl). unfold bind.
    rewrite (@has_text_py_bool t Htext), (Hagree t (@not_all_exists _ t Htext)).
    reflexivity.
Qed.

(** C10: a payload returned by the handler has exactly one item; its
    key is [summary], or it is [error] and then its value is one of
    the two fixed messages. *)
Theorem handler_payload_shape (url : pystr) (tr : list event) (p : payload) :
  handler url = (tr, ok p) ->
  exists k v,
    p = [(k, v)] /\
    (k = py "summary" \/
     (k = py "error" /\
      (v = py "Invalid YouTube URL." \/
       v = py "Transcript not found or not available for this video."))).
Proof.
  unfold get_summary, get_summary_with, ok.
  destruct (extract_youtube_id url) as [e|video_id].
  - destruct (is_ValueError e); unfold ret, throw; intros [= <- <-]. eauto 8.
  - destruct (fetch video_id) as [tr1 [e|[t|]]]; unfold bind, ret.
    + discriminate.
    + destruct (py_bool t).
      * destruct (summarize t) as [tr2 [e|summary]]; [discriminate|].
        intros [= <- <-]. eauto 8.
      * intros [= <- <-]. eauto 8.
    + intros [= <- <-]. eauto 8.
Qed.

End Properties.


(** ** The theorems at concrete services *)

Lemma invalid_url_is_rejected_witness :
  py_in (py "watch?v=") (py "not-a-youtube-url") = false /\
  py_in (py "youtu.be/") (py "not-a-youtube-url") = false /\
  extract_youtube_id (py "not-a-youtube-url") = raise (ValueError (py "Invalid YouTube URL")) /\
  get_summary no_environment failing_transcripts failing_completion (py "not-a-youtube-url")
  = ([], ok [(py "error", py "Invalid YouTube URL.")]).
Proof.
  split; [reflexivity|]. split; [reflexivity|].
  apply (@invalid_url_is_rejected unit no_environment failing_transcripts
           failing_completion (py "not-a-youtube-url")); reflexivity.
Defined.

Lemma end_to_end_success_witness :
  get_summary environment_with_key hello_world_transcripts topic_xy_completion
    (py "https://youtu.be/abc123")
  = ([TranscriptFetch (py "abc123");
      ClientCreated (py "secret");
      GenerateContent (py "secret") (py "gemini-2.5-pro")
        [mk_Content (py "user") [mk_Part (prompt_of (py "Hello world"))]]],
     ok [(py "summary", topic_xy)]).
Proof.
  apply (@end_to_end_success unit environment_with_key hello_world_transcripts
           topic_xy_completion (py "secret") (captions [py "Hello"; py "world"])
           (py "model") [] []).
  - reflexivity.
  - vm_compute. discriminate.
  - reflexivity.
  - reflexivity.
  - reflexivity.
Defined.

Lemma fetch_failure_is_none_witness :
  (exists e, failing_transcripts (py "abc123") = raise e) /\
  fetch_youtube_transcript failing_transcripts (py "abc123")
  = ([TranscriptFetch (py "abc123")], ok None).
Proof.
  assert (H : exists e, failing_transcripts (py "abc123") = raise e)
    by (eexists; reflexivity).
  split; [exact H|].
  apply (@fetch_failure_is_none unit failing_transcripts (py "abc123")).
  left. exact H.
Defined.

Lemma summarize_without_credential_witness :
  no_environment (py "GEMINI_API_KEY") = None /\
  summarize_transcript_with_gemini no_environment topic_xy_completion (py "Hello world")
  = ([], raise (EnvironmentError missing_key_message)).
Proof.
  split; [reflexivity|].
  apply (@summarize_without_credential no_environment topic_xy_completion
           (py "Hello world")).
  reflexivity.
Defined.

Lemma fetch_joins_texts_witness :
  a_b_transcripts (py "abc123") = ok (captions [py "a"; py "b"]) /\
  outcome (fetch_youtube_transcript a_b_transcripts (py "abc123")) = ok (Some (py "a b")).
Proof.
  split; [reflexivity|].
  destruct (@fetch_joins_texts unit a_b_transcripts (py "abc123")
              (captions [py "a"; py "b"]) eq_refl) as (_ & _ & H).
  apply H. reflexivity.
Defined.

Lemma summarizer_error_propagates_witness :
  extract_youtube_id (py "https://youtu.be/abc123") = ok (py "abc123") /\
  get_summary no_environment hello_world_transcripts topic_xy_completion
    (py "https://youtu.be/abc123")
  = ([TranscriptFetch (py "abc123")] ++ [],
     raise (EnvironmentError missing_key_message)).
Proof.
  split; [reflexivity|].
  apply (@summarizer_error_propagates unit no_environment hello_world_transcripts
           topic_xy_completion (py "https://youtu.be/abc123") (py "abc123")
           (py "Hello world")); reflexivity.
Defined.

Lemma fetched_transcript_has_text_witness :
  outcome (fetch_youtube_transcript hello_world_transcripts (py "abc123"))
  = ok (Some (py "Hello world")) /\
  exists c, In c (py "Hello world") /\ py_isspace c = false.
Proof.
  split; [reflexivity|].
  destruct (@fetched_transcript_has_text unit hello_world_transcripts) as [H _].
  apply (H (py "abc123")). reflexivity.
Defined.

Lemma handler_payload_shape_witness :
  exists k v,
    [(py "summary", topic_xy)] = [(k, v)] /\
    (k = py "summary" \/
     (k = py "error" /\
      (v = py "Invalid YouTube URL." \/
       v = py "Transcript not found or not available for this video."))).
Proof.
  apply (@handler_payload_shape unit environment_with_key hello_world_transcripts
           topic_xy_completion (py "https://youtu.be/abc123")
           (trace (get_summary environment_with_key hello_world_transcripts
                     topic_xy_completion (py "https://youtu.be/abc123")))).
  reflexivity.
Defined.

(** ** The handler, run *)

Example upstream_error_leaves_the_handler :
  outcome (get_summary environment_with_key hello_world_transcripts failing_completion
             (py "https://youtu.be/abc123"))
  = raise (LibraryError (py "ServerError") (py "503 UNAVAILABLE")).
Proof. reflexivity. Qed.

Example blank_transcript_is_not_available :
  get_summary environment_with_key blank_transcripts topic_xy_completion
    (py "https://www.youtube.com/watch?v=abc123")
  = ([TranscriptFetch (py "abc123")],
     ok [(py "error", py "Transcript not found or not available for this video.")]).
Proof. reflexivity. Qed.

Example failed_fetch_is_not_available :
  get_summary environment_with_key failing_transcripts topic_xy_completion
    (py "https://www.youtube.com/watch?v=abc123&list=PL1")
  = ([TranscriptFetch (py "abc123")],
     ok [(py "error", py "Transcript not found or not available for this video.")]).
Proof. reflexivity. Qed.

Example split_is_leftmost :
  py_split (py "aa") (py "aaaxaa") = ok [[]; py "ax"; []].
Proof. reflexivity. Qed.

Example strip_keeps_inner_spaces : py_strip (py "  a b   ") = py "a b".
Proof. reflexivity. Qed.

(** * Further properties *)

(** ** The URL parser: failures and what does not change its result *)

Lemma py_in_weaken (sub s t : pystr) :
  py_in sub s = true -> py_in sub (s ++ t) = true.
Proof.
  intros H. destruct (py_in_elim _ _ H) as (a & b & ->).
  rewrite <- !app_assoc. apply py_in_intro.
Qed.

(** An occurrence that appears when one character is appended ends
    with that character. *)
Lemma py_in_snoc (sub s : pystr) (c : char) :
  sub <> [] ->
  py_in sub (s ++ [c]) = true ->
  py_in sub s = true \/ exists sub', sub = sub' ++ [c].
Proof.
  intros Hsub H. destruct (py_in_elim _ _ H) as (a & b & E).
  destruct (@exists_last _ sub Hsub) as (sub' & z & ->).
  induction b as [|y b _] using rev_ind.
  - right. exists sub'. rewrite app_nil_r, app_assoc in E.
    apply app_inj_tail in E as [_ <-]. reflexivity.
  - left.
    assert (E' : s ++ [c] = (a ++ (sub' ++ [z]) ++ b) ++ [y])
      by (rewrite E; now rewrite <- !app_assoc).
    apply app_inj_tail in E' as [-> _]. apply py_in_intro.
Qed.

Lemma no_v_after (s : pystr) :
  py_in (py "v=") s = false ->
  py_in (py "v=") (s ++ removelast (py "v=")) = false.
Proof.
  intros Hs. change (removelast (py "v=")) with [118%N].
  destruct (py_in (py "v=") (s ++ [118%N])) eqn:E; [|reflexivity].
  apply py_in_snoc in E as [E | (sub' & E)]; [congruence | | discriminate].
  destruct sub' as [|x [|y [|z sub']]]; discriminate E.
Qed.

(** Any way of reading a URL of the watch branch as a prefix without
    [v=], then [v=], then a text [r] without [&] and [v=] that ends the
    URL or is followed by [&] or [v=], gives the parser's result. *)
Lemma watch_branch_cut (a r rest : pystr) :
  py_in (py "youtube.com/watch?v=") (a ++ py "v=" ++ r ++ rest) = true ->
  py_in (py "v=") a = false ->
  py_in (py "v=") r = false ->
  py_in (py "&") r = false ->
  rest = [] \/ startswith (py "&") rest = true \/ startswith (py "v=") rest = true ->
  extract_youtube_id (a ++ py "v=" ++ r ++ rest) = ok r.
Proof.
  intros Hmark Ha Hv Hamp Hrest. unfold extract_youtube_id. rewrite Hmark.
  assert (Nv : py "v=" <> []) by discriminate.
  assert (Namp : py "&" <> []) by discriminate.
  rewrite (py_split_ok _ Nv).
  rewrite (@split_from_first (py "v=") a (r ++ rest) Nv (@no_v_after a Ha)).
  assert (Hpieces : exists h tl tl',
             split_from (py "v=") (r ++ rest) 0 = h :: tl /\
             split_from (py "&") h 0 = r :: tl').
  { destruct Hrest as [Hrest | [Hrest | Hrest]].
    - apply watch_id_pieces; auto.
    - apply watch_id_pieces; auto.
    - destruct (startswith_inv _ _ Hrest) as [b ->].
      exists r, (split_from (py "v=") b 0), []. split.
      + exact (@split_from_first (py "v=") r b Nv (@no_v_after r Hv)).
      + exact (@split_from_none (py "&") r Namp Hamp). }
  destruct Hpieces as (h & tl & tl' & H1 & H2).
  rewrite H1. cbn [rbind ok]. rewrite py_index_1. cbn [rbind ok].
  rewrite (py_split_ok _ Namp), H2. cbn [rbind ok]. apply py_index_0.
Qed.

Lemma rstrip_by_app_all (p : char -> bool) (s t : pystr) :
  forallb p t = true -> rstrip_by p (s ++ t) = rstrip_by p s.
Proof.
  intros Ht. induction s as [|c s IH]; simpl.
  - now apply rstrip_by_nil.
  - now rewrite IH.
Qed.

(** Appended slashes do not bring in the marker of the watch branch. *)
Lemma watch_marker_not_by_slashes (url : pystr) (n : nat) :
  py_in (py "youtube.com/watch?v=") url = false ->
  py_in (py "youtube.com/watch?v=") (url ++ repeat slash n) = false.
Proof.
  intros Hurl. induction n as [|n IH].
  - now rewrite app_nil_r.
  - simpl repeat. rewrite repeat_cons, app_assoc.
    destruct (py_in _ ((url ++ repeat slash n) ++ [slash])) eqn:E; [|reflexivity].
    apply py_in_snoc in E as [E | (sub' & E)]; [congruence | | discriminate].
    assert (Hlast : last (py "youtube.com/watch?v=") 0%N = slash)
      by (rewrite E; apply last_last).
    discriminate Hlast.
Qed.

(** Why the parser fails, when it does. *)
Lemma extract_error (url : pystr) (e : exn) :
  extract_youtube_id url = raise e ->
  e = ValueError (py "Invalid YouTube URL") /\
  py_in (py "youtube.com/watch?v=") url = false /\
  py_in (py "youtu.be/") url = false.
Proof.
  intros H.
  destruct (py_in (py "youtube.com/watch?v=") url) eqn:Hw.
  { destruct (watch_branch_segment url Hw) as (a & r & rest & _ & _ & _ & _ & _ & E).
    rewrite E in H. discriminate. }
  destruct (py_in (py "youtu.be/") url) eqn:Hs.
  { destruct (short_branch_segment url Hw Hs) as (a & r & n & _ & _ & _ & _ & E).
    rewrite E in H. discriminate. }
  unfold extract_youtube_id in H. rewrite Hw, Hs in H.
  injection H as <-. auto.
Qed.

(** X1: the parser raises nothing but the invalid-URL [ValueError]; the
    indexing [split("v=")[1]] is never out of range. *)
Theorem extract_raises_only_invalid_url (url : pystr) (e : exn) :
  extract_youtube_id url = raise e ->
  e = ValueError (py "Invalid YouTube URL").
Proof. intros H. now destruct (extract_error url H). Qed.

Lemma extract_raises_only_invalid_url_witness :
  extract_youtube_id (py "https://example.com/v=") = raise (ValueError (py "Invalid YouTube URL")) /\
  ValueError (py "Invalid YouTube URL") = ValueError (py "Invalid YouTube URL").
Proof.
  split; [reflexivity|].
  apply (@extract_raises_only_invalid_url (py "https://example.com/v=")). reflexivity.
Defined.

(** X2: the parser fails exactly on the URLs that contain neither
    [youtube.com/watch?v=] nor [youtu.be/]; on every other URL it
    returns an identifier. *)
Theorem extract_fails_iff_no_marker (url : pystr) :
  (exists e, extract_youtube_id url = raise e) <->
  py_in (py "youtube.com/watch?v=") url = false /\ py_in (py "youtu.be/") url = false.
Proof.
  split.
  - intros (e & H). now destruct (extract_error url H) as (_ & ? & ?).
  - intros [Hw Hs]. eexists. unfold extract_youtube_id. now rewrite Hw, Hs.
Qed.

(** X3: in the watch branch an appended [&...] does not change the
    result: the parser gives the same identifier for [url] and for
    [url] followed by [&] and anything. *)
Theorem watch_ignores_appended_parameters (url more : pystr) :
  py_in (py "youtube.com/watch?v=") url = true ->
  extract_youtube_id (url ++ py "&" ++ more) = extract_youtube_id url.
Proof.
  intros Hw.
  destruct (watch_branch_segment url Hw)
    as (a & r & rest & Hurl & Ha & Hv & Hamp & Hrest & E).
  rewrite E. pose proof (py_in_weaken _ _ (py "&" ++ more) Hw) as Hw'.
  rewrite Hurl in Hw' |- *. rewrite <- !app_assoc in Hw' |- *.
  apply watch_branch_cut; auto.
  destruct Hrest as [-> | [H | H]].
  - right; left. exact (startswith_app (py "&") more).
  - right; left. now apply startswith_weaken.
  - right; right. now apply startswith_weaken.
Qed.

Lemma watch_ignores_appended_parameters_witness :
  extract_youtube_id (py "https://www.youtube.com/watch?v=abc123" ++ py "&" ++ py "t=5&v=zzz")
  = extract_youtube_id (py "https://www.youtube.com/watch?v=abc123").
Proof.
  apply (@watch_ignores_appended_parameters
           (py "https://www.youtube.com/watch?v=abc123") (py "t=5&v=zzz")).
  reflexivity.
Defined.

(** X4: in the short-link branch appended slashes do not change the
    result. *)
Theorem short_ignores_trailing_slashes (url : pystr) (n : nat) :
  py_in (py "youtube.com/watch?v=") url = false ->
  py_in (py "youtu.be/") url = true ->
  extract_youtube_id (url ++ repeat slash n) = extract_youtube_id url.
Proof.
  intros Hw Hs. unfold extract_youtube_id.
  rewrite (watch_marker_not_by_slashes url n Hw), Hw.
  rewrite (py_in_weaken _ _ (repeat slash n) Hs), Hs.
  unfold py_rstrip.
  now rewrite (@rstrip_by_app_all (char_in (py "/")) url (repeat slash n)
                 (@forallb_repeat (char_in (py "/")) slash n eq_refl)).
Qed.

Lemma short_ignores_trailing_slashes_witness :
  extract_youtube_id (py "https://youtu.be/abc123" ++ repeat slash 3)
  = extract_youtube_id (py "https://youtu.be/abc123").
Proof.
  apply (@short_ignores_trailing_slashes (py "https://youtu.be/abc123") 3); reflexivity.
Defined.

(** ** The fetcher, the summarizer and the handler: calls and failures *)

Section Calls.

Variable timing : Type.
Variable getenv : pystr -> option pystr.
Variable transcript_service : pystr -> result (list (entry timing)).
Variable completion_service : pystr -> pystr -> list Content -> result Response.

Local Abbreviation fetch := (fetch_youtube_transcript transcript_service).
Local Abbreviation summarize :=
  (summarize_transcript_with_gemini getenv completion_service).
Local Abbreviation handler :=
  (get_summary getenv transcript_service completion_service).
Local Abbreviation request_of t :=
  [mk_Content (py "user") [mk_Part (prompt_of t)]].
Local Abbreviation not_available :=
  [(py "error", py "Transcript not found or not available for this video.")].

(** The summarizer with a credential: one request, and what becomes of
    the answer. *)
Lemma summarize_with_key (key transcript : pystr) :
  getenv (py "GEMINI_API_KEY") = Some key ->
  key <> [] ->
  summarize transcript =
  ([ClientCreated key; GenerateContent key (py "gemini-2.5-pro") (request_of transcript)],
   match completion_service key (py "gemini-2.5-pro") (request_of transcript) with
   | inl e => raise e
   | inr response =>
     match candidates response with
     | [] => raise (IndexError (py "list index out of range"))
     | candidate :: _ =>
       match parts (content candidate) with
       | [] => raise (IndexError (py "list index out of range"))
       | part :: _ => ok (text part)
       end
     end
   end).
Proof.
  intros Hkey Hne. unfold summarize_transcript_with_gemini. rewrite Hkey.
  destruct key as [|k key]; [congruence|]. cbn [py_bool].
  unfold genai_Client, generate_content, bind. cbn [client_api_key].
  destruct (completion_service _ _ _) as [e|[cs]]; [reflexivity|].
  cbn [candidates lift]. destruct cs as [|[[r ps]] cs]; [reflexivity|].
  rewrite py_index_0. unfold ok at 1. cbn [content parts].
  destruct ps as [|p ps]; [reflexivity|].
  rewrite py_index_0. reflexivity.
Qed.

(** The handler by cases of its three steps. *)
Lemma handler_unfold (url : pystr) :
  handler url =
  match extract_youtube_id url with
  | inl _ => ([], ok [(py "error", py "Invalid YouTube URL.")])
  | inr video_id =>
    match fetch video_id with
    | (tr, inr (Some t)) =>
      match summarize t with
      | (tr', inl e) => (tr ++ tr', raise e)
      | (tr', inr summary) => (tr ++ tr', ok [(py "summary", summary)])
      end
    | (tr, _) => (tr, ok not_available)
    end
  end.
Proof.
  unfold get_summary, get_summary_with.
  destruct (extract_youtube_id url) as [e|video_id] eqn:E.
  - now rewrite (proj1 (extract_error url E)).
  - rewrite (fetch_unfold transcript_service video_id).
    destruct (transcript_service video_id) as [e|es]; [reflexivity|].
    cbv zeta. destruct (forallb py_isspace _) eqn:B; [reflexivity|].
    unfold bind, ok, raise. cbv beta iota.
    rewrite (@has_text_py_bool _ B).
    destruct (summarize _) as [tr' [e|summary]]; [reflexivity|].
    unfold ret. now rewrite app_nil_r.
Qed.

Lemma summarize_without_key (transcript : pystr) :
  py_bool_opt (getenv (py "GEMINI_API_KEY")) = false ->
  summarize transcript = ([], raise (EnvironmentError missing_key_message)).
Proof.
  intros H. unfold summarize_transcript_with_gemini.
  destruct (getenv (py "GEMINI_API_KEY")) as [[|k key]|]; [reflexivity | | reflexivity].
  discriminate H.
Qed.

Lemma fetch_returns (video_id : pystr) :
  exists r, fetch video_id = ([TranscriptFetch video_id], ok r).
Proof.
  rewrite fetch_unfold.
  destruct (transcript_service video_id) as [e|es]; eexists; reflexivity.
Qed.


(** X6: the summarizer raises the missing-credential error without
    touching the completion client exactly when [GEMINI_API_KEY] is
    unset or set to the empty string. *)
Theorem summarize_needs_nonempty_key (transcript : pystr) :
  summarize transcript = ([], raise (EnvironmentError missing_key_message)) <->
  py_bool_opt (getenv (py "GEMINI_API_KEY")) = false.
Proof.
  split; [|apply summarize_without_key].
  destruct (getenv (py "GEMINI_API_KEY")) as [[|k key]|] eqn:Hkey; try reflexivity.
  rewrite (summarize_with_key transcript Hkey) by discriminate. discriminate.
Qed.

(** X7: with a credential the summarizer makes one client and sends one
    request, to the model [gemini-2.5-pro], with one user message whose
    only part is the prompt built from the transcript; this holds
    whatever the service answers. *)
Theorem summarize_sends_one_request (key transcript : pystr) :
  getenv (py "GEMINI_API_KEY") = Some key ->
  key <> [] ->
  trace (summarize transcript) =
  [ClientCreated key; GenerateContent key (py "gemini-2.5-pro") (request_of transcript)].
Proof. intros Hkey Hne. now rewrite (summarize_with_key transcript Hkey Hne). Qed.

(** X8: an error of the completion service leaves the summarizer
    unchanged. *)
Theorem summarize_passes_service_error (key transcript : pystr) (e : exn) :
  getenv (py "GEMINI_API_KEY") = Some key ->
  key <> [] ->
  completion_service key (py "gemini-2.5-pro") (request_of transcript) = raise e ->
  outcome (summarize transcript) = raise e.
Proof.
  intros Hkey Hne He. rewrite (summarize_with_key transcript Hkey Hne).
  unfold outcome, raise in *. cbn [snd]. now rewrite He.
Qed.

(** X9: a response without candidates, or whose first candidate has no
    parts, makes the summarizer raise [IndexError]. *)
Theorem summarize_empty_response (key transcript : pystr) (response : Response) :
  getenv (py "GEMINI_API_KEY") = Some key ->
  key <> [] ->
  completion_service key (py "gemini-2.5-pro") (request_of transcript) = ok response ->
  candidates response = [] \/
  (exists c cs, candidates response = c :: cs /\ parts (content c) = []) ->
  outcome (summarize transcript) = raise (IndexError (py "list index out of range")).
Proof.
  intros Hkey Hne Hresp Hempty. rewrite (summarize_with_key transcript Hkey Hne).
  unfold outcome, ok in *. cbn [snd]. rewrite Hresp.
  destruct Hempty as [-> | (c & cs & -> & ->)]; reflexivity.
Qed.

(** X10: otherwise the summarizer returns the text of the first part
    of the first candidate, whatever the other parts and candidates
    are. *)
Theorem summarize_returns_first_text (key transcript : pystr) (response : Response)
    (c : Candidate) (cs : list Candidate) (p : Part) (ps : list Part) :
  getenv (py "GEMINI_API_KEY") = Some key ->
  key <> [] ->
  completion_service key (py "gemini-2.5-pro") (request_of transcript) = ok response ->
  candidates response = c :: cs ->
  parts (content c) = p :: ps ->
  outcome (summarize transcript) = ok (text p).
Proof.
  intros Hkey Hne Hresp Hc Hp. rewrite (summarize_with_key transcript Hkey Hne).
  unfold outcome, ok in *. cbn [snd]. now rewrite Hresp, Hc, Hp.
Qed.

(** X11: when the URL parses and the fetcher has no transcript, the
    handler answers with the not-available payload; the environment is
    not read and the completion service is not called. *)
Theorem handler_without_transcript (url video_id : pystr) :
  extract_youtube_id url = ok video_id ->
  outcome (fetch video_id) = ok None ->
  handler url = ([TranscriptFetch video_id], ok not_available).
Proof.
  intros Hid Hnone. rewrite handler_unfold, Hid. unfold ok at 1.
  destruct (fetch_returns video_id) as (r & E).
  rewrite E in *. unfold outcome, ok in Hnone. cbn [snd] in Hnone.
  injection Hnone as ->. reflexivity.
Qed.

(** X12: when the URL parses, a transcript is fetched and the
    summarizer returns, the handler answers with the summarizer's text,
    unchanged, under the key [summary], after the calls of both. *)
Theorem handler_success (url video_id t summary : pystr) (tr tr' : list event) :
  extract_youtube_id url = ok video_id ->
  fetch video_id = (tr, ok (Some t)) ->
  summarize t = (tr', ok summary) ->
  handler url = (tr ++ tr', ok [(py "summary", summary)]).
Proof.
  intros Hid Hfetch Hsum. rewrite handler_unfold, Hid. unfold ok in *.
  now rewrite Hfetch, Hsum.
Qed.


(** X14: in one request the handler calls the transcript service at most
    once, with the identifier parsed from the URL, and the completion
    service at most once and only after it; it never repeats a call. *)
Theorem handler_calls (url : pystr) :
  trace (handler url) = [] \/
  exists video_id,
    extract_youtube_id url = ok video_id /\
    (trace (handler url) = [TranscriptFetch video_id] \/
     exists key contents,
       trace (handler url) =
       [TranscriptFetch video_id; ClientCreated key;
        GenerateContent key (py "gemini-2.5-pro") contents]).
Proof.
  rewrite handler_unfold.
  destruct (extract_youtube_id url) as [e|video_id]; [now left | right].
  exists video_id. split; [reflexivity|].
  destruct (fetch_returns video_id) as (r & ->).
  destruct r as [t|]; [|now left]. unfold ok, raise, trace. cbv beta iota.
  destruct (py_bool_opt (getenv (py "GEMINI_API_KEY"))) eqn:Hbool.
  - right. destruct (getenv (py "GEMINI_API_KEY")) as [key|] eqn:Hkey; [|discriminate].
    assert (Hne : key <> []) by (intros ->; discriminate).
    exists key, (request_of t).
    pose proof (summarize_with_key t Hkey Hne) as Hsum.
    destruct (summarize t) as [tr2 o]. injection Hsum as -> _.
    now destruct o.
  - left. now rewrite (summarize_without_key t Hbool).
Qed.


End Calls.

(** ** The further properties at concrete services *)

Lemma summarize_sends_one_request_witness :
  trace (summarize_transcript_with_gemini environment_with_key failing_completion (py "Hello"))
  = [ClientCreated (py "secret");
     GenerateContent (py "secret") (py "gemini-2.5-pro")
       [mk_Content (py "user") [mk_Part (prompt_of (py "Hello"))]]].
Proof.
  apply (@summarize_sends_one_request environment_with_key failing_completion
           (py "secret") (py "Hello")).
  - reflexivity.
  - vm_compute. discriminate.
Defined.

Lemma summarize_passes_service_error_witness :
  outcome (summarize_transcript_with_gemini environment_with_key failing_completion (py "Hello"))
  = raise (LibraryError (py "ServerError") (py "503 UNAVAILABLE")).
Proof.
  apply (@summarize_passes_service_error environment_with_key failing_completion
           (py "secret") (py "Hello")).
  - reflexivity.
  - vm_compute. discriminate.
  - reflexivity.
Defined.

Lemma summarize_empty_response_witness :
  outcome (summarize_transcript_with_gemini environment_with_key no_parts_completion (py "Hello"))
  = raise (IndexError (py "list index out of range")).
Proof.
  apply (@summarize_empty_response environment_with_key no_parts_completion
           (py "secret") (py "Hello")
           (mk_Response [mk_Candidate (mk_Content (py "model") [])])).
  - reflexivity.
  - vm_compute. discriminate.
  - reflexivity.
  - right. eexists. eexists. split; reflexivity.
Defined.

Lemma summarize_returns_first_text_witness :
  outcome (summarize_transcript_with_gemini environment_with_key two_candidates_completion
             (py "Hello"))
  = ok (py "first").
Proof.
  apply (@summarize_returns_first_text environment_with_key two_candidates_completion
           (py "secret") (py "Hello")
           (mk_Response
              [mk_Candidate (mk_Content (py "model") [mk_Part (py "first"); mk_Part (py "second")]);
               mk_Candidate (mk_Content (py "model") [mk_Part (py "other")])])
           (mk_Candidate (mk_Content (py "model") [mk_Part (py "first"); mk_Part (py "second")]))
           [mk_Candidate (mk_Content (py "model") [mk_Part (py "other")])]
           (mk_Part (py "first")) [mk_Part (py "second")]).
  - reflexivity.
  - vm_compute. discriminate.
  - reflexivity.
  - reflexivity.
  - reflexivity.
Defined.

Lemma handler_without_transcript_witness :
  get_summary no_environment failing_transcripts failing_completion
    (py "https://www.youtube.com/watch?v=abc123")
  = ([TranscriptFetch (py "abc123")],
     ok [(py "error", py "Transcript not found or not available for this video.")]).
Proof.
  apply (@handler_without_transcript unit no_environment failing_transcripts
           failing_completion (py "https://www.youtube.com/watch?v=abc123") (py "abc123"));
    reflexivity.
Defined.

Lemma handler_success_witness :
  get_summary environment_with_key a_b_transcripts two_candidates_completion
    (py "https://youtu.be/abc123")
  = ([TranscriptFetch (py "abc123")]
     ++ [ClientCreated (py "secret");
         GenerateContent (py "secret") (py "gemini-2.5-pro")
           [mk_Content (py "user") [mk_Part (prompt_of (py "a b"))]]],
     ok [(py "summary", py "first")]).
Proof.
  apply (@handler_success unit environment_with_key a_b_transcripts
           two_candidates_completion (py "https://youtu.be/abc123") (py "abc123")
           (py "a b") (py "first")); reflexivity.
Defined.



(** ** The prompt and the string operations *)

(** X16: the prompt contains the transcript as it is, and two
    transcripts with the same prompt are the same: nothing of the
    transcript is escaped, cut or dropped. *)
Theorem prompt_embeds_transcript :
  (forall t, py_in t (prompt_of t) = true) /\
  (forall t1 t2, prompt_of t1 = prompt_of t2 -> t1 = t2).
Proof.
  split.
  - intros t. unfold prompt_of. rewrite !app_assoc. rewrite <- (app_assoc _ t).
    apply py_in_intro.
  - intros t1 t2 H. unfold prompt_of in H.
    repeat (apply app_inv_head in H). now apply app_inv_tail in H.
Qed.

Lemma prompt_embeds_transcript_witness :
  py "Hello world" = py "Hello" ++ py " world".
Proof.
  destruct prompt_embeds_transcript as [_ Hinj].
  apply (Hinj (py "Hello world") (py "Hello" ++ py " world")). reflexivity.
Defined.

(** X17: for a separator that is not empty, [split] returns pieces
    that, joined with the separator, give back the string; nothing but
    the separators is removed by splitting. *)
Theorem join_split (sep s : pystr) :
  sep <> [] ->
  exists pieces, py_split sep s = ok pieces /\ py_join sep pieces = s.
Proof.
  intros Hsep. rewrite (py_split_ok s Hsep). eexists. split; [reflexivity|].
  remember (length s) as n eqn:Hn. revert s Hn.
  induction n as [n IH] using lt_wf_ind. intros s Hn.
  destruct (split_from_head Hsep s) as (h & tl & Hs & _ & [[-> ->] | (b & -> & ->)]).
  - now rewrite Hs.
  - assert (Hlt : length b < n).
    { subst n. rewrite !length_app. destruct sep; [congruence | simpl; lia]. }
    specialize (IH _ Hlt b eq_refl). rewrite Hs.
    pose proof (split_from_nonempty sep b 0) as Hne.
    destruct (split_from sep b 0) as [|y l]; [congruence|].
    now rewrite py_join_cons, IH.
Qed.

Lemma join_split_witness :
  exists pieces,
    py_split (py "v=") (py "https://www.youtube.com/watch?v=abv=c") = ok pieces /\
    py_join (py "v=") pieces = py "https://www.youtube.com/watch?v=abv=c".
Proof.
  apply (@join_split (py "v=") (py "https://www.youtube.com/watch?v=abv=c")).
  vm_compute. discriminate.
Defined.
